(** * ProductImageUploader: a shallow embedding of the React component

    Source: resources/js/React/Components/ProductImageUploader/ProductImageUploader.tsx

    The component owns five [useState] cells, one [useRef] to the file input,
    an imperative handle with two methods, two event handlers (one of them an
    [async] function with a [try]/[catch]/[finally] around a [fetch]) and a
    render function whose [disabled] attributes decide whether the two handlers
    can be reached.

    Handlers are written in a small free monad [task] whose operations are
    the effects the source performs (state setter calls, [URL.createObjectURL],
    [await fetch(..)], [await res.text().catch(..)], [throw]).  A task is run
    up to its next [await]; the suspended continuation is parked in the world
    and resumed when the host environment settles the promise. *)

From stdpp Require Import base decidable option list strings pretty gmap.

Local Open Scope string_scope.

(** ** Browser values *)

(** A [File] of a [FileList]; files are objects and therefore always truthy. *)
Record File := mkFile { file_name : string; file_type : string; file_size : N }.

(** [HTMLInputElement.files] is a [FileList] or [null]. *)
Record HTMLInputElement := mkInput { files : option (list File) }.

(** [<meta name=.. content=..>]; [meta_content] is the reflected IDL property
    (the empty string when the attribute is missing). *)
Record HTMLMetaElement := mkMeta { meta_name : string; meta_content : string }.

(** The part of the hosting page the component looks at: its [meta] elements
    in document order. *)
Definition Document := list HTMLMetaElement.

(** [document.querySelector('meta[name="csrf-token"]')]: the first match. *)
Definition querySelector_meta (name : string) (doc : Document) : option HTMLMetaElement :=
  List.find (λ el, bool_decide (meta_name el = name)) doc.

(** [FormData]: the entries in the order they were appended. *)
Definition FormData := list (string * File).
Definition FormData_new : FormData := [].
Definition FormData_append (form : FormData) (name : string) (f : File) : FormData :=
  (form ++ [(name, f)])%list.

(** The [fetch] call: resource and init dictionary. *)
Record Request := mkRequest {
  req_url : string;
  req_method : string;
  req_body : FormData;
  req_headers : list (string * string)
}.

(** A [Response]; [body_text] is what [res.text()] resolves with, [None] when
    that promise rejects. *)
Record Response := mkResponse {
  status : Z;
  statusText : string;
  body_text : option string
}.

(** [Response.ok] is true exactly for the statuses 200..299 (Fetch standard). *)
Definition ok (res : Response) : bool :=
  bool_decide (200 ≤ status res)%Z && bool_decide (status res ≤ 299)%Z.

(** A thrown value as far as [err?.message] can see it: [null]/[undefined],
    or an object whose [message] property may be missing. *)
Inductive Thrown :=
| ThrownNullish
| ThrownObject (message : option string).

(** [new Error(msg)] *)
Definition new_Error (msg : string) : Thrown := ThrownObject (Some msg).

(** [err?.message] *)
Definition err_message (err : Thrown) : option string :=
  match err with
  | ThrownNullish => None
  | ThrownObject m => m
  end.

(** The settlement of the promise returned by [fetch]. *)
Inductive FetchResult :=
| Fulfilled (res : Response)
| Rejected (err : Thrown).

(** JavaScript [a || b] where [a] is a string, [null] or [undefined] and [b]
    a string: the empty string, [null] and [undefined] are falsy. *)
Definition js_or (a : option string) (b : string) : string :=
  match a with
  | Some s => if decide (s = EmptyString) then b else s
  | None => b
  end.

(** Truthiness of such a value, as used by [{success && ...}] in the JSX. *)
Definition truthy (a : option string) : bool :=
  match a with
  | Some s => bool_decide (s ≠ EmptyString)
  | None => false
  end.

(** ** Component state: the five [useState] cells *)

Record State := mkState {
  isDisabled : bool;
  loading : bool;
  success : option string;
  error : option string;
  previewUrl : option string
}.

(** The initial values passed to [useState]. *)
Definition initial_state : State :=
  {| isDisabled := false; loading := false;
     success := None; error := None; previewUrl := None |}.

(** A call to one of the five state setters. *)
Inductive setter :=
| SetIsDisabled (b : bool)
| SetLoading (b : bool)
| SetSuccess (v : option string)
| SetError (v : option string)
| SetPreviewUrl (v : option string).

Definition apply_setter (c : setter) (s : State) : State :=
  match c with
  | SetIsDisabled b =>
      {| isDisabled := b; loading := loading s; success := success s;
         error := error s; previewUrl := previewUrl s |}
  | SetLoading b =>
      {| isDisabled := isDisabled s; loading := b; success := success s;
         error := error s; previewUrl := previewUrl s |}
  | SetSuccess v =>
      {| isDisabled := isDisabled s; loading := loading s; success := v;
         error := error s; previewUrl := previewUrl s |}
  | SetError v =>
      {| isDisabled := isDisabled s; loading := loading s; success := success s;
         error := v; previewUrl := previewUrl s |}
  | SetPreviewUrl v =>
      {| isDisabled := isDisabled s; loading := loading s; success := success s;
         error := error s; previewUrl := v |}
  end.

(** ** Tasks: the effects of a handler body *)

Inductive task (A : Type) : Type :=
| Return (a : A)
| Throw (err : Thrown)
| Setter (c : setter) (k : task A)
| CreateObjectURL (f : File) (k : string → task A)
| AwaitFetch (rq : Request) (k : FetchResult → task A)
| AwaitText (res : Response) (k : option string → task A).

Arguments Return {A} a.
Arguments Throw {A} err.
Arguments Setter {A} c k.
Arguments CreateObjectURL {A} f k.
Arguments AwaitFetch {A} rq k.
Arguments AwaitText {A} res k.

Fixpoint task_bind {A B} (f : A → task B) (t : task A) : task B :=
  match t with
  | Return a => f a
  | Throw err => Throw err
  | Setter c k => Setter c (task_bind f k)
  | CreateObjectURL x k => CreateObjectURL x (λ u, task_bind f (k u))
  | AwaitFetch rq k => AwaitFetch rq (λ r, task_bind f (k r))
  | AwaitText res k => AwaitText res (λ v, task_bind f (k v))
  end.

Global Instance task_ret : MRet task := @Return.
Global Instance task_mbind : MBind task := @task_bind.

(** [try { body } catch (err) { handler err }] *)
Fixpoint try_catch {A} (body : task A) (handler : Thrown → task A) : task A :=
  match body with
  | Return a => Return a
  | Throw err => handler err
  | Setter c k => Setter c (try_catch k handler)
  | CreateObjectURL x k => CreateObjectURL x (λ u, try_catch (k u) handler)
  | AwaitFetch rq k => AwaitFetch rq (λ r, try_catch (k r) handler)
  | AwaitText res k => AwaitText res (λ v, try_catch (k v) handler)
  end.

(** [try { body } finally { cleanup }]: the cleanup runs on both exits and
    the completion of the body is then resumed (a [throw] inside the cleanup
    would replace it). *)
Fixpoint try_finally {A} (body : task A) (cleanup : task unit) : task A :=
  match body with
  | Return a => cleanup ;; Return a
  | Throw err => cleanup ;; Throw err
  | Setter c k => Setter c (try_finally k cleanup)
  | CreateObjectURL x k => CreateObjectURL x (λ u, try_finally (k u) cleanup)
  | AwaitFetch rq k => AwaitFetch rq (λ r, try_finally (k r) cleanup)
  | AwaitText res k => AwaitText res (λ v, try_finally (k v) cleanup)
  end.

(** [try { body } catch (err) { handler err } finally { cleanup }]: the
    cleanup also runs after the handler. *)
Definition try_catch_finally {A} (body : task A) (handler : Thrown → task A)
    (cleanup : task unit) : task A :=
  try_finally (try_catch body handler) cleanup.

(** The primitive operations as unit-returning tasks. *)
Definition setIsDisabled (b : bool) : task unit := Setter (SetIsDisabled b) (Return tt).
Definition setLoading (b : bool) : task unit := Setter (SetLoading b) (Return tt).
Definition setSuccess (v : option string) : task unit := Setter (SetSuccess v) (Return tt).
Definition setError (v : option string) : task unit := Setter (SetError v) (Return tt).
Definition setPreviewUrl (v : option string) : task unit := Setter (SetPreviewUrl v) (Return tt).
Definition URL_createObjectURL (f : File) : task string := CreateObjectURL f Return.

(** [await fetch(url, init)]: a rejection is thrown at the [await]. *)
Definition await_fetch (rq : Request) : task Response :=
  AwaitFetch rq (λ r, match r with
                      | Fulfilled res => Return res
                      | Rejected err => Throw err
                      end).

(** [await res.text().catch(() => null)] *)
Definition await_text_or_null (res : Response) : task (option string) :=
  AwaitText res Return.

(** ** Running a task *)

(** The browser's blob URL store.  [URL.createObjectURL] registers the file
    and returns a new [blob:] URL; the component never revokes one, so the
    store only grows and the position of an entry identifies its URL. *)
Definition BlobStore := list File.

Definition blob_url (i : nat) : string := "blob:" +:+ pretty i.

Definition createObjectURL (f : File) (b : BlobStore) : string * BlobStore :=
  (blob_url (length b), (b ++ [f])%list).

(** The URLs issued so far, and the file a URL stands for. *)
Definition issued (b : BlobStore) : list string := blob_url <$> seq 0 (length b).

Definition resolve_blob (b : BlobStore) (u : string) : option File :=
  '(i, _) ← list_find (λ v, v = u) (issued b); b !! i.

(** What a task does to the outside, in program order. *)
Inductive effect :=
| ESet (c : setter)
| EObjectURL (f : File) (u : string)
| EFetch (rq : Request).

Inductive completion (A : Type) : Type :=
| Finished (a : A)
| Raised (err : Thrown)
| Suspended (t : task A).

Arguments Finished {A} a.
Arguments Raised {A} err.
Arguments Suspended {A} t.

Record outcome (A : Type) : Type := mkOutcome {
  out_state : State;
  out_blobs : BlobStore;
  out_trace : list effect;
  out_completion : completion A
}.

Arguments mkOutcome {A}.
Arguments out_state {A}.
Arguments out_blobs {A}.
Arguments out_trace {A}.
Arguments out_completion {A}.

(** Prefix an outcome with an effect that happened before it. *)
Definition after {A} (e : list effect) (r : outcome A) : outcome A :=
  {| out_state := out_state r; out_blobs := out_blobs r;
     out_trace := (e ++ out_trace r)%list; out_completion := out_completion r |}.

(** Run a task up to its first [await].  [fetch] is called, and the request
    leaves, when the [await fetch(..)] is reached. *)
Fixpoint run {A} (t : task A) (s : State) (b : BlobStore) : outcome A :=
  match t with
  | Return a => mkOutcome s b [] (Finished a)
  | Throw err => mkOutcome s b [] (Raised err)
  | Setter c k => after [ESet c] (run k (apply_setter c s) b)
  | CreateObjectURL f k =>
      let ub := createObjectURL f b in
      after [EObjectURL f ub.1] (run (k ub.1) s ub.2)
  | AwaitFetch rq k => mkOutcome s b [EFetch rq] (Suspended t)
  | AwaitText res k => mkOutcome s b [] (Suspended t)
  end.

(** Run a task to its end when nothing else touches the state in between:
    [net] tells how the network settles each request. *)
Fixpoint run_to_end {A} (net : Request → FetchResult) (t : task A)
    (s : State) (b : BlobStore) : outcome A :=
  match t with
  | Return a => mkOutcome s b [] (Finished a)
  | Throw err => mkOutcome s b [] (Raised err)
  | Setter c k => after [ESet c] (run_to_end net k (apply_setter c s) b)
  | CreateObjectURL f k =>
      let ub := createObjectURL f b in
      after [EObjectURL f ub.1] (run_to_end net (k ub.1) s ub.2)
  | AwaitFetch rq k => after [EFetch rq] (run_to_end net (k (net rq)) s b)
  | AwaitText res k => run_to_end net (k (body_text res)) s b
  end.

(** The state a trace leads to. *)
Definition replay (tr : list effect) (s : State) : State :=
  foldl (λ s e, match e with ESet c => apply_setter c s | _ => s end) s tr.

(** ** The component *)

(** ECMAScript Number values and [Number::toString] stay abstract: the
    component only interpolates the id into a template literal. *)
Class JSNumber := {
  number : Type;
  Number_toString : number → string
}.

(** [id: number | string] *)
Inductive ProductId `{JSNumber} : Type :=
| IdNumber (n : number)
| IdString (s : string).

(** [interface ProductModel]; the index signature's other fields are never
    read by the component. *)
Record ProductModel `{JSNumber} : Type := mkProductModel { id : ProductId }.

(** [`${v}`] for [v : number | string] *)
Definition template `{JSNumber} (v : ProductId) : string :=
  match v with
  | IdNumber n => Number_toString n
  | IdString s => s
  end.

(** The object built by [useImperativeHandle]: a JavaScript object with the
    two methods [enabled] and [disabled]. *)
Definition handle : gmap string (task unit) :=
  {[ "enabled" := setIsDisabled false;
     "disabled" := setIsDisabled true ]}.

Definition getCsrfToken (document : Document) : string :=
  let el := querySelector_meta "csrf-token" document in
  js_or (meta_content <$> el) EmptyString.

(** [e.target.files?.[0]] and [inputRef.current?.files?.[0]] *)
Definition first_file (el : option HTMLInputElement) : option File :=
  match el with
  | Some el =>
      match files el with
      | Some l => l !! 0%nat
      | None => None
      end
  | None => None
  end.

Definition handleFileChange (e_target : HTMLInputElement) : task unit :=
  setSuccess None ;;
  setError None ;;
  let file := first_file (Some e_target) in
  match file with
  | Some file =>
      url ← URL_createObjectURL file;
      setPreviewUrl (Some url)
  | None =>
      setPreviewUrl None
  end.

(** The arguments of the [fetch] call, with the [FormData] built before it. *)
Definition upload_request `{JSNumber} (productModel : ProductModel)
    (document : Document) (file : File) : Request :=
  let form := FormData_new in
  let form := FormData_append form "image" file in
  {| req_url := "/api/products/" +:+ template (id productModel) +:+ "/image";
     req_method := "POST";
     req_body := form;
     req_headers := [("X-CSRF-TOKEN", getCsrfToken document)] |}.

(** The [try]/[catch]/[finally] statement of [handleUpload]. *)
Definition handleUpload_try `{JSNumber} (productModel : ProductModel)
    (document : Document) (file : File) : task unit :=
  try_catch_finally
    (res ← await_fetch (upload_request productModel document file);
     (if negb (ok res) then
        text ← await_text_or_null res;
        Throw (new_Error (js_or (Some (js_or text (statusText res)))
                                "Erro no servidor"))
      else mret tt) ;;
     setSuccess (Some "Upload realizado com sucesso.") ;;
     setError None)
    (λ err, setError (Some (js_or (err_message err) "Erro ao enviar imagem.")))
    (setLoading false).

Definition handleUpload `{JSNumber} (productModel : ProductModel)
    (document : Document) (inputRef_current : option HTMLInputElement) : task unit :=
  setSuccess None ;;
  setError None ;;
  let file := first_file inputRef_current in
  match file with
  | None =>
      setError (Some "Selecione um arquivo para envio.")
  | Some file =>
      setLoading true ;;
      handleUpload_try productModel document file
  end.

(** What the JSX depends on. *)
Record View := mkView {
  disabled_alert : bool;
  success_alert : option string;
  error_alert : option string;
  preview_src : option string;
  input_disabled : bool;
  button_disabled : bool;
  button_spinner : bool
}.

Definition render (s : State) : View :=
  {| disabled_alert := isDisabled s;
     success_alert := if truthy (success s) then success s else None;
     error_alert := if truthy (error s) then error s else None;
     preview_src := if truthy (previewUrl s) then previewUrl s else None;
     input_disabled := isDisabled s || loading s;
     button_disabled := isDisabled s || loading s;
     button_spinner := loading s |}.

(** ** The component as a transition system *)

(** The world of a mounted component: its props and hosting page, the five
    cells, the blob store, the file input that [inputRef] points to, and the
    suspended [async] calls. *)
Record World `{JSNumber} : Type := mkWorld {
  props : ProductModel;
  page : Document;
  state : State;
  blobs : BlobStore;
  input : HTMLInputElement;
  pending : list (task unit)
}.

(** Mounting: the cells hold their initial values and nothing is selected. *)
Definition mount `{JSNumber} (productModel : ProductModel) (document : Document) : World :=
  {| props := productModel; page := document;
     state := initial_state; blobs := [];
     input := {| files := Some [] |}; pending := [] |}.

(** Start or resume a task in a world; a task that suspends is parked. *)
Definition exec `{JSNumber} (t : task unit) (w : World) : World * list effect :=
  let r := run t (state w) (blobs w) in
  ({| props := props w; page := page w;
      state := out_state r; blobs := out_blobs r; input := input w;
      pending := match out_completion r with
                 | Suspended t' => (pending w ++ [t'])%list
                 | _ => pending w
                 end |},
   out_trace r).

Inductive event :=
| Call (method : string)
| Change (fs : option (list File))
| Click
| FetchSettles (i : nat) (r : FetchResult)
| TextSettles (i : nat).

Definition unpark `{JSNumber} (i : nat) (w : World) : World :=
  {| props := props w; page := page w;
     state := state w; blobs := blobs w; input := input w;
     pending := delete i (pending w) |}.

Definition select `{JSNumber} (fs : option (list File)) (w : World) : World :=
  {| props := props w; page := page w;
     state := state w; blobs := blobs w; input := {| files := fs |};
     pending := pending w |}.

(** One event of the environment:
    - [Call m]: the parent calls [ref.current[m]()]; a method the handle does
      not have throws a [TypeError] in the caller and never reaches the
      component;
    - [Change fs]: the user changes the selection of the file input to [fs];
    - [Click]: the user clicks the button;
    - [FetchSettles i r]: the [fetch] promise of the [i]-th parked call settles;
    - [TextSettles i]: its [res.text().catch(..)] promise settles.
    A disabled form control receives neither [change] nor [click]. *)
Definition step `{JSNumber} (e : event) (w : World) : World * list effect :=
  match e with
  | Call method =>
      match handle !! method with
      | Some m => exec m w
      | None => (w, [])
      end
  | Change fs =>
      if input_disabled (render (state w)) then (w, [])
      else let w := select fs w in exec (handleFileChange (input w)) w
  | Click =>
      if button_disabled (render (state w)) then (w, [])
      else exec (handleUpload (props w) (page w) (Some (input w))) w
  | FetchSettles i r =>
      match pending w !! i with
      | Some (AwaitFetch _ k) => exec (k r) (unpark i w)
      | _ => (w, [])
      end
  | TextSettles i =>
      match pending w !! i with
      | Some (AwaitText res k) => exec (k (body_text res)) (unpark i w)
      | _ => (w, [])
      end
  end.

Definition steps `{JSNumber} (es : list event) (w : World) : World :=
  foldl (λ w e, (step e w).1) w es.

Inductive reachable `{JSNumber} (productModel : ProductModel) (document : Document)
  : World → Prop :=
| reachable_mount : reachable productModel document (mount productModel document)
| reachable_step e w :
    reachable productModel document w →
    reachable productModel document (step e w).1.

(** ** Reading traces *)

(** The arguments of the [setLoading], [setSuccess] and [fetch] calls of a
    trace, in order. *)
Definition loading_calls (tr : list effect) : list bool :=
  omap (λ e, match e with ESet (SetLoading v) => Some v | _ => None end) tr.

Definition success_calls (tr : list effect) : list (option string) :=
  omap (λ e, match e with ESet (SetSuccess v) => Some v | _ => None end) tr.

Definition fetches (tr : list effect) : list Request :=
  omap (λ e, match e with EFetch rq => Some rq | _ => None end) tr.

(** At most one of the two messages is non-null. *)
Definition at_most_one_message (s : State) : Prop :=
  success s = None ∨ error s = None.

(** The states a trace passes through, one after each effect. *)
Fixpoint trajectory (tr : list effect) (s : State) : list State :=
  match tr with
  | [] => []
  | e :: tr => let s' := replay [e] s in s' :: trajectory tr s'
  end.

(** The continuation of a task suspended on [fetch]. *)
Definition resume_fetch (t : task unit) (r : FetchResult) : task unit :=
  match t with
  | AwaitFetch _ k => k r
  | _ => t
  end.

(** The suspended calls a mounted component can have: a [handleUpload]
    waiting for its [fetch], or for the body of a non-2xx response. *)
Inductive in_flight `{JSNumber} (productModel : ProductModel) (document : Document)
  : task unit → Prop :=
| in_flight_fetch file :
    in_flight productModel document (handleUpload_try productModel document file)
| in_flight_text file res :
    ok res = false →
    in_flight productModel document
      (resume_fetch (handleUpload_try productModel document file) (Fulfilled res)).

(** What holds of every world a mounted component can be in. *)
Record invariant `{JSNumber} (productModel : ProductModel) (document : Document)
    (w : World) : Prop := mkInvariant {
  inv_props : props w = productModel;
  inv_page : page w = document;
  inv_messages : at_most_one_message (state w);
  inv_preview_issued : ∀ u, previewUrl (state w) = Some u → u ∈ issued (blobs w);
  inv_preview_file :
    is_Some (previewUrl (state w)) ↔ is_Some (first_file (Some (input w)));
  inv_pending :
    (pending w = [] ∧ loading (state w) = false)
    ∨ (∃ t, pending w = [t] ∧ in_flight productModel document t
            ∧ loading (state w) = true
            ∧ success (state w) = None ∧ error (state w) = None)
}.

(** The error message of a non-2xx response in the words of the
    specification: the body text if non-empty, else the HTTP status text,
    else a generic fallback.  To be compared with what [handleUpload] sets. *)
Definition spec_server_error_message (res : Response) : string :=
  match body_text res with
  | Some (String c text) => String c text
  | _ =>
      match statusText res with
      | String c text => String c text
      | EmptyString => "Erro no servidor"
      end
  end.

(** The request in the words of the specification: a POST to
    [/api/products/{id}/image], a multipart form with the one field [image],
    and the [X-CSRF-TOKEN] header holding the content of the page's
    [meta[name="csrf-token"]] if there is one, else the empty string. *)
Definition spec_upload_request `{JSNumber} (productModel : ProductModel)
    (document : Document) (file : File) : Request :=
  {| req_url := "/api/products/" +:+
                match id productModel with
                | IdNumber n => Number_toString n
                | IdString s => s
                end +:+ "/image";
     req_method := "POST";
     req_body := [("image", file)];
     req_headers :=
       [("X-CSRF-TOKEN",
         match List.find (λ el, bool_decide (meta_name el = "csrf-token")) document with
         | Some el => meta_content el
         | None => EmptyString
         end)] |}.

(** ** The scenario of the specification: product 42 on a Laravel page *)

(** Integer-valued ids print in decimal. *)
Definition integer_ids : JSNumber := {| number := Z; Number_toString := pretty |}.

Definition product_42 : @ProductModel integer_ids :=
  @mkProductModel integer_ids (@IdNumber integer_ids 42%Z).

Definition laravel_page : Document :=
  [ {| meta_name := "viewport"; meta_content := "width=device-width" |};
    {| meta_name := "csrf-token"; meta_content := "s3cr3t" |} ].

Definition photo_png : File :=
  {| file_name := "photo.png"; file_type := "image/png"; file_size := 2048 |}.

Definition logo_png : File :=
  {| file_name := "logo.png"; file_type := "image/png"; file_size := 512 |}.

Definition widget_42 : @World integer_ids := @mount integer_ids product_42 laravel_page.

(** The user has picked [photo.png]. *)
Definition selected_42 : @World integer_ids :=
  @steps integer_ids [Change (Some [photo_png])] widget_42.

(** The user has picked [logo.png], then [photo.png] instead. *)
Definition reselected_42 : @World integer_ids :=
  @steps integer_ids [Change (Some [logo_png]); Change (Some [photo_png])] widget_42.

(** The parent has called [disabled()]. *)
Definition disabled_42 : @World integer_ids :=
  @steps integer_ids [Call "disabled"] selected_42.

(** Answers of the endpoint. *)
Definition created_201 : Response :=
  {| status := 201; statusText := "Created"; body_text := Some "{}" |}.

Definition forbidden_403 : Response :=
  {| status := 403; statusText := "Forbidden"; body_text := Some EmptyString |}.

Definition bad_image_422 : Response :=
  {| status := 422; statusText := "Unprocessable Entity"; body_text := Some "bad image" |}.

Definition answers (res : Response) : Request → FetchResult := λ _, Fulfilled res.

(** The upload of [photo.png] has been answered with 201. *)
Definition uploaded_42 : @World integer_ids :=
  @steps integer_ids [Click; FetchSettles 0 (Fulfilled created_201)] selected_42.

(** ** Further readings of traces and worlds *)

(** The [URL.createObjectURL] calls of a trace, with the URL each returned. *)
Definition object_urls (tr : list effect) : list (File * string) :=
  omap (λ e, match e with EObjectURL f u => Some (f, u) | _ => None end) tr.

(** What is in the cells is fit to be shown: the success cell is null or the
    fixed text, a non-null error is a non-empty text, and a non-null preview
    is the URL of the first file of the input. *)
Record presentable `{JSNumber} (w : World) : Prop := mkPresentable {
  shown_success :
    success (state w) = None
    ∨ success (state w) = Some "Upload realizado com sucesso.";
  shown_error : ∀ m, error (state w) = Some m → m ≠ EmptyString;
  shown_preview :
    ∀ u, previewUrl (state w) = Some u →
         resolve_blob (blobs w) u = first_file (Some (input w))
}.

(** More of the scenario: the request is sent and not yet answered; the
    network is down; a page with two csrf-token elements. *)
Definition uploading_42 : @World integer_ids :=
  @steps integer_ids [Click] selected_42.

Definition failed_to_fetch : Thrown := ThrownObject (Some "Failed to fetch").

Definition offline : Request → FetchResult := λ _, Rejected failed_to_fetch.

Definition two_token_page : Document :=
  [ {| meta_name := "viewport"; meta_content := "width=device-width" |};
    {| meta_name := "csrf-token"; meta_content := "first" |};
    {| meta_name := "csrf-token"; meta_content := "second" |} ].

(** ** Properties *)

Section Properties.

Context `{JSNumber}.

(** *** Tasks and traces *)

Lemma replay_cons e tr s :
  replay (e :: tr) s = replay tr (replay [e] s).
Proof. reflexivity. Qed.

Lemma replay_app tr1 tr2 s :
  replay (tr1 ++ tr2)%list s = replay tr2 (replay tr1 s).
Proof. unfold replay. apply foldl_app. Qed.

(** The state a run ends in is the replay of its trace. *)
Lemma run_replay {A} (t : task A) s b :
  out_state (run t s b) = replay (out_trace (run t s b)) s.
Proof.
  revert s b.
  induction t as [a|err|c k IH|f k IH|rq k IH|res k IH]; intros s b; simpl;
    rewrite ?IH; done.
Qed.

Lemma run_to_end_replay {A} net (t : task A) s b :
  out_state (run_to_end net t s b) = replay (out_trace (run_to_end net t s b)) s.
Proof.
  revert s b.
  induction t as [a|err|c k IH|f k IH|rq k IH|res k IH]; intros s b; simpl;
    rewrite ?IH; done.
Qed.

(** Running to the end is running to the first [await], settling it, and
    running the continuation to the end. *)
Lemma run_to_end_resume {A} net (t : task A) s b :
  run_to_end net t s b =
  let r := run t s b in
  match out_completion r with
  | Suspended (AwaitFetch rq k) =>
      after (out_trace r) (run_to_end net (k (net rq)) (out_state r) (out_blobs r))
  | Suspended (AwaitText res k) =>
      after (out_trace r) (run_to_end net (k (body_text res)) (out_state r) (out_blobs r))
  | _ => r
  end.
Proof.
  revert s b.
  induction t as [a|err|c k IH|f k IH|rq k IH|res k IH]; intros s b; simpl.
  - done.
  - done.
  - rewrite IH. simpl.
    destruct (out_completion (run k (apply_setter c s) b)) as [?|?|[]]; done.
  - rewrite IH. simpl.
    destruct (out_completion (run (k (blob_url (length b))) s (b ++ [f])%list))
      as [?|?|[]]; done.
  - done.
  - unfold after. simpl. by destruct (run_to_end net (k (body_text res)) s b).
Qed.

Lemma js_or_some_empty (c : string) : js_or (Some c) EmptyString = c.
Proof. unfold js_or. by destruct (decide (c = EmptyString)) as [->|]. Qed.

Lemma js_or_nonempty a b : b ≠ EmptyString → js_or a b ≠ EmptyString.
Proof. unfold js_or. destruct a as [s|]; [destruct (decide (s = EmptyString))|]; done. Qed.

(** *** Submitting *)

Lemma no_file_trace productModel document inputRef_current net s b :
  first_file inputRef_current = None →
  out_trace (run_to_end net (handleUpload productModel document inputRef_current) s b)
  = [ESet (SetSuccess None); ESet (SetError None);
     ESet (SetError (Some "Selecione um arquivo para envio."))]
  ∧ run (handleUpload productModel document inputRef_current) s b
    = run_to_end net (handleUpload productModel document inputRef_current) s b.
Proof.
  intros Hfile. unfold handleUpload. rewrite Hfile. done.
Qed.

(** C1. Every invocation of [handleUpload] while the input has no first file
    finishes without suspending, calls [fetch] never, sets the error to the
    fixed validation message and never calls [setLoading]: its whole trace is
    the two clearing calls followed by [setError] of that message. *)
Theorem upload_without_file productModel document inputRef_current net s b :
  first_file inputRef_current = None →
  let r := run_to_end net (handleUpload productModel document inputRef_current) s b in
  out_trace r = [ESet (SetSuccess None); ESet (SetError None);
                 ESet (SetError (Some "Selecione um arquivo para envio."))]
  ∧ fetches (out_trace r) = []
  ∧ loading_calls (out_trace r) = []
  ∧ error (out_state r) = Some "Selecione um arquivo para envio."
  ∧ success (out_state r) = None
  ∧ loading (out_state r) = loading s
  ∧ out_completion r = Finished tt
  ∧ run (handleUpload productModel document inputRef_current) s b = r.
Proof.
  intros Hfile. unfold handleUpload. rewrite Hfile. simpl. done.
Qed.

(** [res.ok] is "the status is 2xx". *)
Lemma ok_status res : ok res = true ↔ (200 ≤ status res ≤ 299)%Z.
Proof.
  unfold ok. rewrite andb_true_iff, !bool_decide_eq_true. done.
Qed.

(** The trace of a whole upload, by the way the request settles. *)
Lemma upload_trace productModel document inputRef_current file net s b :
  first_file inputRef_current = Some file →
  let rq := upload_request productModel document file in
  out_trace (run_to_end net (handleUpload productModel document inputRef_current) s b) =
  ([ESet (SetSuccess None); ESet (SetError None); ESet (SetLoading true); EFetch rq] ++
   match net rq with
   | Fulfilled res =>
       if ok res then
         [ESet (SetSuccess (Some "Upload realizado com sucesso.")); ESet (SetError None)]
       else
         [ESet (SetError (Some (js_or (err_message (new_Error
            (js_or (Some (js_or (body_text res) (statusText res))) "Erro no servidor")))
            "Erro ao enviar imagem.")))]
   | Rejected err =>
       [ESet (SetError (Some (js_or (err_message err) "Erro ao enviar imagem.")))]
   end ++ [ESet (SetLoading false)])%list
  ∧ out_completion (run_to_end net (handleUpload productModel document inputRef_current) s b)
    = Finished tt.
Proof.
  intros Hfile rq. unfold handleUpload. rewrite Hfile. simpl.
  fold rq. destruct (net rq) as [res|err]; simpl; [|done].
  destruct (ok res); simpl; done.
Qed.

Lemma server_error_message res :
  js_or (err_message (new_Error
    (js_or (Some (js_or (body_text res) (statusText res))) "Erro no servidor")))
    "Erro ao enviar imagem."
  = spec_server_error_message res.
Proof.
  unfold spec_server_error_message, new_Error, err_message, js_or.
  destruct (body_text res) as [[|c text]|]; simpl;
    destruct (statusText res) as [|c' text']; simpl; done.
Qed.

Lemma upload_request_spec productModel document file :
  upload_request productModel document file
  = spec_upload_request productModel document file.
Proof.
  unfold upload_request, spec_upload_request, getCsrfToken, querySelector_meta, template.
  simpl. do 3 f_equal.
  destruct (find _ document) as [el|]; simpl; [apply js_or_some_empty|done].
Qed.

(** C2. Every invocation of [handleUpload] with a first file in the input
    calls [setLoading(true)] before [fetch] and suspends with the loading
    flag up; whichever way the request settles (2xx, non-2xx, rejection), the
    part of the trace after the [fetch] calls [setLoading] exactly once, with
    [false], as its last effect, and the invocation finishes with the flag
    down. *)
Theorem upload_with_file_loading productModel document inputRef_current file net s b :
  first_file inputRef_current = Some file →
  let t := handleUpload productModel document inputRef_current in
  let rq := upload_request productModel document file in
  loading (out_state (run t s b)) = true
  ∧ out_completion (run t s b) = Suspended (handleUpload_try productModel document file)
  ∧ ∃ pre post,
      out_trace (run t s b) = (pre ++ [EFetch rq])%list
      ∧ out_trace (run_to_end net t s b) = (pre ++ [EFetch rq] ++ post ++ [ESet (SetLoading false)])%list
      ∧ loading_calls pre = [true] ∧ fetches pre = []
      ∧ loading_calls post = [] ∧ fetches post = []
      ∧ loading (out_state (run_to_end net t s b)) = false
      ∧ out_completion (run_to_end net t s b) = Finished tt.
Proof.
  intros Hfile t rq.
  destruct (upload_trace productModel document _ file net s b Hfile) as [Htr Hfin].
  fold t rq in Htr, Hfin.
  split; [|split].
  - unfold t, handleUpload. rewrite Hfile. done.
  - unfold t, handleUpload. rewrite Hfile. done.
  - eexists [ESet (SetSuccess None); ESet (SetError None); ESet (SetLoading true)], _.
    split; [unfold t, handleUpload; rewrite Hfile; done|].
    split; [exact Htr|].
    rewrite run_to_end_replay, Htr.
    destruct (net rq) as [res|err]; [destruct (ok res)|]; done.
Qed.

(** C3. For every upload whose request is answered: a 2xx status sets the
    success message to the fixed text and leaves the error null, whatever the
    body; any other status sets the error to the body text if non-empty, else
    the status text, else the fallback, and [setSuccess] is only ever called
    with [null]. *)
Theorem upload_response_messages productModel document inputRef_current file net res s b :
  first_file inputRef_current = Some file →
  net (upload_request productModel document file) = Fulfilled res →
  let r := run_to_end net (handleUpload productModel document inputRef_current) s b in
  ((200 ≤ status res ≤ 299)%Z →
     success (out_state r) = Some "Upload realizado com sucesso."
     ∧ error (out_state r) = None
     ∧ success_calls (out_trace r) = [None; Some "Upload realizado com sucesso."])
  ∧ (¬ (200 ≤ status res ≤ 299)%Z →
     error (out_state r) = Some (spec_server_error_message res)
     ∧ success (out_state r) = None
     ∧ success_calls (out_trace r) = [None]).
Proof.
  intros Hfile Hnet r.
  destruct (upload_trace productModel document _ file net s b Hfile) as [Htr _].
  fold r in Htr. rewrite Hnet in Htr.
  unfold r at 1 2 4 5. rewrite !run_to_end_replay. fold r. rewrite Htr.
  split; intros Hst.
  - apply ok_status in Hst. rewrite Hst. done.
  - assert (ok res = false) as ->.
    { destruct (ok res) eqn:E; [|done]. by apply ok_status in E. }
    rewrite server_error_message. done.
Qed.

Lemma upload_fetches productModel document inputRef_current file net s b :
  first_file inputRef_current = Some file →
  fetches (out_trace (run_to_end net (handleUpload productModel document inputRef_current) s b))
  = [upload_request productModel document file].
Proof.
  intros Hfile.
  destruct (upload_trace productModel document _ file net s b Hfile) as [-> _].
  destruct (net _) as [res|err]; [destruct (ok res)|]; done.
Qed.

(** C8. Every upload issues exactly one [fetch]: a POST to
    [/api/products/{id}/image] with the id interpolated, whose body is a form
    with the single field [image] holding the first file of the input, and
    whose [X-CSRF-TOKEN] header is the content of the page's csrf-token meta
    element if there is one, else the empty string. *)
Theorem upload_issues_one_request productModel document inputRef_current file net s b :
  first_file inputRef_current = Some file →
  fetches (out_trace (run_to_end net (handleUpload productModel document inputRef_current) s b))
  = [spec_upload_request productModel document file].
Proof.
  intros Hfile.
  rewrite (upload_fetches _ _ _ file) by done.
  by rewrite upload_request_spec.
Qed.

(** *** Selecting a file *)

(** C6. Every invocation of [handleFileChange] ends with both messages null,
    whatever they were before and whether or not the selection has a file. *)
Theorem file_change_clears_messages e_target s b :
  let r := run (handleFileChange e_target) s b in
  success (out_state r) = None
  ∧ error (out_state r) = None
  ∧ out_completion r = Finished tt
  ∧ ∃ rest, out_trace r = ESet (SetSuccess None) :: ESet (SetError None) :: rest.
Proof.
  unfold handleFileChange. destruct (first_file (Some e_target)); simpl; eauto.
Qed.

(** *** The blob URL store *)

Lemma blob_url_inj i j : blob_url i = blob_url j → i = j.
Proof.
  unfold blob_url. intros Heq. injection Heq as Heq.
  apply (inj pretty). exact Heq.
Qed.

Lemma blob_url_nonempty i : blob_url i ≠ EmptyString.
Proof. done. Qed.

Lemma issued_snoc (b : list File) f :
  issued (b ++ [f])%list = (issued b ++ [blob_url (length b)])%list.
Proof.
  unfold issued. rewrite length_app. simpl.
  rewrite Nat.add_1_r, seq_S, fmap_app. done.
Qed.

Lemma issued_lookup (b : list File) i : issued b !! i = blob_url <$> (b !! i ≫= λ _, Some i).
Proof.
  unfold issued. rewrite list_lookup_fmap.
  destruct (decide (i < length b)) as [Hlt|Hge].
  - rewrite lookup_seq_lt by done.
    destruct (lookup_lt_is_Some_2 b i Hlt) as [f ->]. done.
  - rewrite lookup_seq_ge by lia. rewrite lookup_ge_None_2 by lia. done.
Qed.

(** A URL that was not issued before. *)
Lemma createObjectURL_fresh f (b : list File) : (createObjectURL f b).1 ∉ issued b.
Proof.
  simpl. unfold issued. intros Hin.
  apply list_elem_of_fmap in Hin as (i & Heq & Hin).
  apply blob_url_inj in Heq. subst i.
  apply elem_of_seq in Hin. lia.
Qed.

(** A URL resolves to the file registered under it. *)
Lemma resolve_blob_url (b : list File) i : resolve_blob b (blob_url i) = b !! i.
Proof.
  unfold resolve_blob.
  destruct (list_find (λ v, v = blob_url i) (issued b)) as [[j u]|] eqn:Hfind; simpl.
  - apply list_find_Some in Hfind as (Hj & -> & _).
    rewrite issued_lookup in Hj.
    destruct (b !! j) eqn:Hbj; [|done].
    apply (inj Some), blob_url_inj in Hj. by subst.
  - destruct (b !! i) eqn:Hbi; [|done].
    apply list_find_None in Hfind.
    rewrite Forall_forall in Hfind. exfalso. apply (Hfind (blob_url i)); [|done].
    apply list_elem_of_lookup. exists i. rewrite issued_lookup, Hbi. done.
Qed.

Lemma createObjectURL_resolves f (b : list File) :
  resolve_blob (createObjectURL f b).2 (createObjectURL f b).1 = Some f.
Proof.
  simpl. rewrite resolve_blob_url. apply list_lookup_middle. done.
Qed.

(** *** The handle *)

Lemma handle_methods m t :
  handle !! m = Some t →
  (m = "enabled" ∧ t = setIsDisabled false) ∨ (m = "disabled" ∧ t = setIsDisabled true).
Proof.
  unfold handle. rewrite lookup_insert_Some, lookup_singleton_Some.
  intros [[<- <-]|[_ [<- <-]]]; auto.
Qed.

(** *** Suspended uploads *)

(** An upload suspended on [fetch] is at an [AwaitFetch]. *)
Lemma upload_try_shape productModel document file :
  handleUpload_try productModel document file
  = AwaitFetch (upload_request productModel document file)
               (resume_fetch (handleUpload_try productModel document file)).
Proof. reflexivity. Qed.

(** After a non-2xx response it is at an [AwaitText], and what is left sets
    the error and lowers the loading flag. *)
Lemma upload_try_not_ok productModel document file res :
  ok res = false →
  ∃ k, resume_fetch (handleUpload_try productModel document file) (Fulfilled res)
       = AwaitText res k
    ∧ ∀ text s b,
        run (k text) s b =
        {| out_state := apply_setter (SetLoading false)
             (apply_setter (SetError (Some (js_or (err_message (new_Error
                (js_or (Some (js_or text (statusText res))) "Erro no servidor")))
                "Erro ao enviar imagem."))) s);
           out_blobs := b;
           out_trace := [ESet (SetError (Some (js_or (err_message (new_Error
                (js_or (Some (js_or text (statusText res))) "Erro no servidor")))
                "Erro ao enviar imagem.")));
                         ESet (SetLoading false)];
           out_completion := Finished tt |}.
Proof.
  intros Hok. unfold handleUpload_try, try_catch_finally, resume_fetch. simpl.
  rewrite Hok. simpl. eexists. split; [reflexivity|]. intros text s b. reflexivity.
Qed.

Lemma upload_try_ok productModel document file res s b :
  ok res = true →
  run (resume_fetch (handleUpload_try productModel document file) (Fulfilled res)) s b =
  {| out_state := apply_setter (SetLoading false) (apply_setter (SetError None)
       (apply_setter (SetSuccess (Some "Upload realizado com sucesso.")) s));
     out_blobs := b;
     out_trace := [ESet (SetSuccess (Some "Upload realizado com sucesso."));
                   ESet (SetError None); ESet (SetLoading false)];
     out_completion := Finished tt |}.
Proof.
  intros Hok. unfold handleUpload_try, try_catch_finally, resume_fetch. simpl.
  rewrite Hok. reflexivity.
Qed.

Lemma upload_try_rejected productModel document file err s b :
  run (resume_fetch (handleUpload_try productModel document file) (Rejected err)) s b =
  {| out_state := apply_setter (SetLoading false)
       (apply_setter (SetError (Some (js_or (err_message err) "Erro ao enviar imagem."))) s);
     out_blobs := b;
     out_trace := [ESet (SetError (Some (js_or (err_message err) "Erro ao enviar imagem.")));
                   ESet (SetLoading false)];
     out_completion := Finished tt |}.
Proof. reflexivity. Qed.

(** *** The invariant *)

Lemma invariant_mount productModel document :
  invariant productModel document (mount productModel document).
Proof.
  split; simpl.
  - done.
  - done.
  - by left.
  - done.
  - split; intros [? ?]; done.
  - by left.
Qed.

Ltac messages :=
  unfold at_most_one_message in *; simpl in *;
  first [ left; solve [auto] | right; solve [auto] | intuition congruence ].

Ltac along := simpl; repeat (constructor; [messages|]); try constructor.

Ltac idle := left; split; [reflexivity|solve [auto]].

Ltac busy :=
  right; eexists; split; [reflexivity|]; split; [eassumption|done].

Ltac keeps :=
  split; [split; simpl; try done; try messages; try idle; try busy|along].

(** Every step keeps the invariant, and every state the step passes through
    shows at most one message. *)
Lemma invariant_step productModel document e w :
  invariant productModel document w →
  invariant productModel document (step e w).1
  ∧ Forall at_most_one_message (trajectory (step e w).2 (state w)).
Proof.
  destruct w as [pm doc st bl inp pend].
  intros [Hpm Hdoc Hmsg Hissued Hfile Hpend]; simpl in *; subst pm doc.
  destruct e as [m|fs| |i r|i]; simpl.
  - (* Call *)
    destruct (handle !! m) as [t|] eqn:Hm; [|by split].
    apply handle_methods in Hm as [[_ ->]|[_ ->]]; simpl; keeps.
  - (* Change *)
    destruct (isDisabled st || loading st) eqn:Hoff; [by split|].
    apply orb_false_elim in Hoff as [_ Hload].
    destruct Hpend as [[-> _]|(t & _ & _ & Hl & _)]; [|congruence].
    unfold exec, handleFileChange. simpl.
    destruct fs as [[|f rest]|]; simpl; keeps.
    intros u [= <-]. rewrite issued_snoc. apply elem_of_app. right. constructor.
  - (* Click *)
    destruct (isDisabled st || loading st) eqn:Hoff; [by split|].
    apply orb_false_elim in Hoff as [_ Hload].
    destruct Hpend as [[-> _]|(t & _ & _ & Hl & _)]; [|congruence].
    unfold exec, handleUpload.
    destruct (first_file (Some inp)) as [file|] eqn:Hsel; simpl; keeps.
    right. eexists. split; [reflexivity|]. split; [apply in_flight_fetch|done].
  - (* FetchSettles *)
    destruct Hpend as [[-> Hl]|(t & -> & Ht & Hl & Hs & He)]; [rewrite lookup_nil; simpl; keeps|].
    destruct i as [|i]; [simpl|simpl; keeps].
    destruct Ht as [file|file res Hok].
    + rewrite upload_try_shape. unfold exec. simpl pending. simpl state. simpl blobs.
      destruct r as [res|err].
      * destruct (ok res) eqn:Hok.
        -- rewrite upload_try_ok by done. simpl; keeps.
        -- destruct (upload_try_not_ok productModel document file res Hok) as (k & Hk & _).
           rewrite Hk. simpl; keeps.
           right. eexists. split; [reflexivity|]. split; [|done].
           rewrite <- Hk. by apply in_flight_text.
      * rewrite upload_try_rejected. simpl; keeps.
    + pose proof (in_flight_text productModel document file res Hok) as Ht.
      destruct (upload_try_not_ok productModel document file res Hok) as (k & Hk & _).
      rewrite Hk in Ht |- *. simpl; keeps.
  - (* TextSettles *)
    destruct Hpend as [[-> Hl]|(t & -> & Ht & Hl & Hs & He)]; [rewrite lookup_nil; simpl; keeps|].
    destruct i as [|i]; [simpl|simpl; keeps].
    destruct Ht as [file|file res Hok].
    + pose proof (in_flight_fetch productModel document file) as Ht.
      rewrite upload_try_shape in Ht |- *. simpl; keeps.
    + destruct (upload_try_not_ok productModel document file res Hok) as (k & -> & Hk).
      unfold exec. simpl pending. simpl state. simpl blobs. rewrite Hk. simpl; keeps.
Qed.

Lemma reachable_invariant productModel document w :
  reachable productModel document w → invariant productModel document w.
Proof.
  induction 1 as [|e w _ IH]; [apply invariant_mount|].
  by apply invariant_step.
Qed.

(** A click on the enabled button of an idle widget, followed by the
    settlement of the request and of the body read, has the effects and the
    final cells of [run_to_end]. *)
Lemma click_then_settle (w : World) file net :
  button_disabled (render (state w)) = false →
  pending w = [] →
  first_file (Some (input w)) = Some file →
  let rq := upload_request (props w) (page w) file in
  let a := step Click w in
  let b := step (FetchSettles 0 (net rq)) a.1 in
  let c := step (TextSettles 0) b.1 in
  let r := run_to_end net (handleUpload (props w) (page w) (Some (input w)))
             (state w) (blobs w) in
  (a.2 ++ b.2 ++ c.2)%list = out_trace r
  ∧ state c.1 = out_state r
  ∧ pending c.1 = [].
Proof.
  destruct w as [pm doc st bl inp pend]. simpl. intros Hoff -> Hfile.
  rewrite Hoff. unfold exec, handleUpload. simpl. rewrite Hfile. simpl.
  destruct (net (upload_request pm doc file)) as [res|err]; simpl; [|done].
  destruct (ok res); done.
Qed.

(** *** Enablement *)

(** C4. In every world whose [isDisabled] cell is true, whatever the loading
    flag, a change of the file input and a click on the button reach no
    handler: the world (cells, blob store, selection, suspended calls) is
    unchanged and no effect happens. *)
Theorem disabled_widget_is_inert (w : World) :
  isDisabled (state w) = true →
  (∀ fs, step (Change fs) w = (w, [])) ∧ step Click w = (w, []).
Proof.
  intros Hdis. unfold step, render. simpl. rewrite Hdis. done.
Qed.

(** *** Preview *)

(** C5. After every change of the file input of a mounted component, the
    preview cell is non-null exactly when the input has a first file.  With a
    file, the cell holds a non-empty URL that the browser had not issued
    before, different from the previous preview, that resolves to that file
    and is rendered; without one, the cell is null and no preview is
    rendered. *)
Theorem file_change_preview productModel document w fs :
  reachable productModel document w →
  input_disabled (render (state w)) = false →
  let w' := (step (Change fs) w).1 in
  input w' = {| files := fs |}
  ∧ (is_Some (previewUrl (state w')) ↔ is_Some (first_file (Some (input w'))))
  ∧ (∀ f, first_file (Some (input w')) = Some f →
       ∃ u, previewUrl (state w') = Some u
            ∧ u ≠ EmptyString
            ∧ (u ∉ issued (blobs w))
            ∧ previewUrl (state w) ≠ Some u
            ∧ resolve_blob (blobs w') u = Some f
            ∧ preview_src (render (state w')) = Some u)
  ∧ (first_file (Some (input w')) = None →
       previewUrl (state w') = None ∧ preview_src (render (state w')) = None).
Proof.
  intros Hreach Hoff.
  pose proof (inv_preview_issued _ _ _ (reachable_invariant _ _ _ Hreach)) as Hissued.
  destruct w as [pm doc st bl inp pend]. simpl in Hoff, Hissued. simpl.
  rewrite Hoff. unfold exec, handleFileChange. simpl.
  destruct fs as [[|f rest]|]; simpl.
  - repeat split; try done; intros [? ?]; done.
  - split; [done|]. split; [split; eauto|]. split; [|done].
    intros f' [= <-]. exists (blob_url (length bl)).
    pose proof (createObjectURL_fresh f bl) as Hfresh. simpl in Hfresh.
    repeat split; try done.
    + intros Hprev. by apply Hfresh, Hissued.
    + apply (createObjectURL_resolves f bl).
  - repeat split; try done; intros [? ?]; done.
Qed.

(** C10. With several files in the input's selection only the first one
    counts: both handlers are the same tasks as with the first file alone,
    the preview URL is created from and resolves to the first file, the
    upload's form holds exactly the first file, and every step of the
    component has the same effects and leads to the same cells, blob store
    and suspended calls as with the first file alone. *)
Theorem only_first_file_is_used productModel document (f g : File) (others : list File) :
  let many := {| files := Some (f :: g :: others) |} in
  let one := {| files := Some [f] |} in
  handleFileChange many = handleFileChange one
  ∧ handleUpload productModel document (Some many)
    = handleUpload productModel document (Some one)
  ∧ (∀ s b, ∃ u,
       out_trace (run (handleFileChange many) s b) =
         [ESet (SetSuccess None); ESet (SetError None);
          EObjectURL f u; ESet (SetPreviewUrl (Some u))]
       ∧ previewUrl (out_state (run (handleFileChange many) s b)) = Some u
       ∧ resolve_blob (out_blobs (run (handleFileChange many) s b)) u = Some f)
  ∧ (∀ net s b,
       req_body <$> fetches (out_trace
         (run_to_end net (handleUpload productModel document (Some many)) s b))
       = [[("image", f)]])
  ∧ (∀ e w,
       let a := step e (select (Some (f :: g :: others)) w) in
       let b := step e (select (Some [f]) w) in
       a.2 = b.2 ∧ state a.1 = state b.1 ∧ blobs a.1 = blobs b.1
       ∧ pending a.1 = pending b.1).
Proof.
  intros many one. split; [done|]. split; [done|]. split; [|split].
  - intros s b. exists (blob_url (length b)). split; [done|]. split; [done|].
    apply (createObjectURL_resolves f b).
  - intros net s b.
    rewrite (upload_fetches productModel document (Some many) f net s b) by done.
    done.
  - intros e [pm doc st bl inp pend]. destruct e as [m|fs| |i r|i]; simpl.
    + destruct (handle !! m); done.
    + destruct (isDisabled st || loading st); done.
    + destruct (isDisabled st || loading st); done.
    + destruct (pend !! i) as [[]|]; done.
    + destruct (pend !! i) as [[]|]; done.
Qed.

(** *** Messages *)

(** C7. In every world a mounted component can reach, and in every state it
    passes through on the way, at most one of the two messages is non-null;
    and every invocation of [handleUpload] starts with [setSuccess(null)] and
    [setError(null)], after which [setLoading] is either never called or
    called at once with [true] and later exactly once more, with [false]. *)
Theorem one_message_at_a_time productModel document :
  (∀ w, reachable productModel document w →
     at_most_one_message (state w)
     ∧ ∀ e, Forall at_most_one_message (trajectory (step e w).2 (state w)))
  ∧ (∀ inputRef_current net s b, ∃ rest,
       out_trace (run_to_end net (handleUpload productModel document inputRef_current) s b)
       = ESet (SetSuccess None) :: ESet (SetError None) :: rest
       ∧ success (replay [ESet (SetSuccess None); ESet (SetError None)] s) = None
       ∧ error (replay [ESet (SetSuccess None); ESet (SetError None)] s) = None
       ∧ (loading_calls rest = []
          ∨ ∃ rest', rest = ESet (SetLoading true) :: rest'
                     ∧ loading_calls rest' = [false])).
Proof.
  split.
  - intros w Hreach. apply reachable_invariant in Hreach.
    split; [apply (inv_messages _ _ _ Hreach)|].
    intros e. by apply (invariant_step productModel document).
  - intros inputRef_current net s b.
    destruct (first_file inputRef_current) as [file|] eqn:Hfile.
    + destruct (upload_trace productModel document _ file net s b Hfile) as [-> _].
      eexists. split; [reflexivity|]. split; [done|]. split; [done|].
      right. eexists. split; [reflexivity|].
      destruct (net _) as [res|err]; [destruct (ok res)|]; done.
    + destruct (no_file_trace productModel document _ net s b Hfile) as [-> _].
      eexists. split; [reflexivity|]. split; [done|]. split; [done|]. by left.
Qed.

(** C9, as the code has it.  The handle has exactly the two methods
    [enabled] and [disabled].  Each finishes without suspending and returns
    no value; each is idempotent; and [enabled(); disabled(); enabled()]
    leaves [isDisabled] false and everything else in the world as it was:
    the loading flag, both messages, the preview, the blob store, the
    selection and the suspended calls. *)
Theorem handle_enabled_disabled :
  (∀ m, is_Some (handle !! m) ↔ m = "enabled" ∨ m = "disabled")
  ∧ (∀ m t s b, handle !! m = Some t → out_completion (run t s b) = Finished tt)
  ∧ (∀ w : World,
       state (step (Call "enabled") w).1 = apply_setter (SetIsDisabled false) (state w)
       ∧ state (step (Call "disabled") w).1 = apply_setter (SetIsDisabled true) (state w))
  ∧ (∀ (w : World) m, steps [Call m; Call m] w = steps [Call m] w)
  ∧ (∀ w : World,
       let w' := steps [Call "enabled"; Call "disabled"; Call "enabled"] w in
       isDisabled (state w') = false
       ∧ loading (state w') = loading (state w)
       ∧ success (state w') = success (state w)
       ∧ error (state w') = error (state w)
       ∧ previewUrl (state w') = previewUrl (state w)
       ∧ blobs w' = blobs w ∧ input w' = input w ∧ pending w' = pending w).
Proof.
  split; [|split; [|split; [|split]]].
  - intros m. split.
    + intros [t Hm]. apply handle_methods in Hm. tauto.
    + intros [->| ->]; eexists; reflexivity.
  - intros m t s b Hm. apply handle_methods in Hm as [[_ ->]|[_ ->]]; done.
  - intros w. split; reflexivity.
  - intros w m. unfold steps. simpl.
    destruct (handle !! m) as [t|] eqn:Hm; simpl; [|done].
    apply handle_methods in Hm as [[_ ->]|[_ ->]]; done.
  - intros w. repeat split; reflexivity.
Qed.

End Properties.

(** ** The scenario of the specification, checked *)

Lemma upload_without_file_witness :
  first_file (Some (input widget_42)) = None
  ∧ let r := run_to_end (answers created_201)
               (@handleUpload integer_ids product_42 laravel_page (Some (input widget_42)))
               (state widget_42) (blobs widget_42) in
    fetches (out_trace r) = []
    ∧ loading_calls (out_trace r) = []
    ∧ error (out_state r) = Some "Selecione um arquivo para envio.".
Proof.
  split; [reflexivity|].
  destruct (@upload_without_file integer_ids product_42 laravel_page
              (Some (input widget_42)) (answers created_201)
              (state widget_42) (blobs widget_42) eq_refl)
    as (_ & Hfetch & Hload & Herr & _).
  exact (conj Hfetch (conj Hload Herr)).
Defined.

Lemma upload_with_file_loading_witness :
  first_file (Some (input selected_42)) = Some photo_png
  ∧ let t := @handleUpload integer_ids product_42 laravel_page (Some (input selected_42)) in
    loading (out_state (run t (state selected_42) (blobs selected_42))) = true
    ∧ loading (out_state (run_to_end (answers forbidden_403) t
                            (state selected_42) (blobs selected_42))) = false.
Proof.
  split; [reflexivity|].
  destruct (@upload_with_file_loading integer_ids product_42 laravel_page
              (Some (input selected_42)) photo_png (answers forbidden_403)
              (state selected_42) (blobs selected_42) eq_refl)
    as (Hup & _ & pre & post & _ & _ & _ & _ & _ & _ & Hdown & _).
  exact (conj Hup Hdown).
Defined.

Lemma upload_response_messages_witness :
  first_file (Some (input selected_42)) = Some photo_png
  ∧ (let r := run_to_end (answers created_201)
                (@handleUpload integer_ids product_42 laravel_page (Some (input selected_42)))
                (state selected_42) (blobs selected_42) in
     success (out_state r) = Some "Upload realizado com sucesso."
     ∧ error (out_state r) = None)
  ∧ (let r := run_to_end (answers forbidden_403)
                (@handleUpload integer_ids product_42 laravel_page (Some (input selected_42)))
                (state selected_42) (blobs selected_42) in
     error (out_state r) = Some "Forbidden" ∧ success (out_state r) = None)
  ∧ (let r := run_to_end (answers bad_image_422)
                (@handleUpload integer_ids product_42 laravel_page (Some (input selected_42)))
                (state selected_42) (blobs selected_42) in
     error (out_state r) = Some "bad image" ∧ success (out_state r) = None).
Proof.
  split; [reflexivity|]. split; [|split].
  - destruct (@upload_response_messages integer_ids product_42 laravel_page
                (Some (input selected_42)) photo_png (answers created_201) created_201
                (state selected_42) (blobs selected_42) eq_refl eq_refl) as [Hok _].
    destruct Hok as (Hs & He & _); [simpl; lia|]. exact (conj Hs He).
  - destruct (@upload_response_messages integer_ids product_42 laravel_page
                (Some (input selected_42)) photo_png (answers forbidden_403) forbidden_403
                (state selected_42) (blobs selected_42) eq_refl eq_refl) as [_ Hko].
    destruct Hko as (He & Hs & _); [simpl; lia|]. exact (conj He Hs).
  - destruct (@upload_response_messages integer_ids product_42 laravel_page
                (Some (input selected_42)) photo_png (answers bad_image_422) bad_image_422
                (state selected_42) (blobs selected_42) eq_refl eq_refl) as [_ Hko].
    destruct Hko as (He & Hs & _); [simpl; lia|]. exact (conj He Hs).
Defined.

Lemma disabled_widget_is_inert_witness :
  isDisabled (state disabled_42) = true
  ∧ @step integer_ids (Change (Some [logo_png])) disabled_42 = (disabled_42, [])
  ∧ @step integer_ids (Change None) disabled_42 = (disabled_42, [])
  ∧ @step integer_ids Click disabled_42 = (disabled_42, []).
Proof.
  split; [reflexivity|].
  destruct (@disabled_widget_is_inert integer_ids disabled_42 eq_refl) as [Hchange Hclick].
  exact (conj (Hchange (Some [logo_png])) (conj (Hchange None) Hclick)).
Defined.

Lemma reachable_selected_42 :
  @reachable integer_ids product_42 laravel_page
    (@steps integer_ids [Change (Some [logo_png])] widget_42).
Proof.
  exact (@reachable_step integer_ids product_42 laravel_page
           (Change (Some [logo_png])) widget_42
           (@reachable_mount integer_ids product_42 laravel_page)).
Defined.

Lemma file_change_preview_witness :
  @reachable integer_ids product_42 laravel_page
    (@steps integer_ids [Change (Some [logo_png])] widget_42)
  ∧ input_disabled (render (state (@steps integer_ids [Change (Some [logo_png])] widget_42)))
    = false
  ∧ input reselected_42 = {| files := Some [photo_png] |}
  ∧ ∃ u, previewUrl (state reselected_42) = Some u
         ∧ u ≠ EmptyString
         ∧ previewUrl (state (@steps integer_ids [Change (Some [logo_png])] widget_42)) ≠ Some u
         ∧ resolve_blob (blobs reselected_42) u = Some photo_png.
Proof.
  split; [exact reachable_selected_42|]. split; [reflexivity|].
  destruct (@file_change_preview integer_ids product_42 laravel_page
              (@steps integer_ids [Change (Some [logo_png])] widget_42)
              (Some [photo_png]) reachable_selected_42 eq_refl)
    as (Hinput & _ & Hsome & _).
  split; [exact Hinput|].
  destruct (Hsome photo_png eq_refl) as (u & Hu & Hne & _ & Hprev & Hres & _).
  exists u. exact (conj Hu (conj Hne (conj Hprev Hres))).
Defined.

Lemma reachable_uploaded_42 :
  @reachable integer_ids product_42 laravel_page uploaded_42.
Proof.
  exact (@reachable_step integer_ids product_42 laravel_page
           (FetchSettles 0 (Fulfilled created_201)) _
           (@reachable_step integer_ids product_42 laravel_page Click _
              (@reachable_step integer_ids product_42 laravel_page
                 (Change (Some [photo_png])) widget_42
                 (@reachable_mount integer_ids product_42 laravel_page)))).
Defined.

Lemma one_message_at_a_time_witness :
  @reachable integer_ids product_42 laravel_page uploaded_42
  ∧ at_most_one_message (state uploaded_42)
  ∧ Forall at_most_one_message
      (trajectory (@step integer_ids Click uploaded_42).2 (state uploaded_42)).
Proof.
  split; [exact reachable_uploaded_42|].
  destruct (@one_message_at_a_time integer_ids product_42 laravel_page) as [Hreach _].
  destruct (Hreach uploaded_42 reachable_uploaded_42) as [Hnow Halong].
  exact (conj Hnow (Halong Click)).
Defined.

Lemma upload_issues_one_request_witness :
  first_file (Some (input selected_42)) = Some photo_png
  ∧ fetches (out_trace (run_to_end (answers created_201)
       (@handleUpload integer_ids product_42 laravel_page (Some (input selected_42)))
       (state selected_42) (blobs selected_42)))
    = [ {| req_url := "/api/products/42/image";
           req_method := "POST";
           req_body := [("image", photo_png)];
           req_headers := [("X-CSRF-TOKEN", "s3cr3t")] |} ].
Proof.
  split; [reflexivity|].
  exact (@upload_issues_one_request integer_ids product_42 laravel_page
           (Some (input selected_42)) photo_png (answers created_201)
           (state selected_42) (blobs selected_42) eq_refl).
Defined.

(** C9, as the specification has it: the handle has no method named [enable]
    or [disable], so on a disabled widget the calls [enable()], [disable()],
    [enable()] do not leave it enabled. *)
Lemma enable_is_not_a_method :
  handle !! "enable" = None
  ∧ handle !! "disable" = None
  ∧ isDisabled (state disabled_42) = true
  ∧ isDisabled (state (@steps integer_ids
                         [Call "enable"; Call "disable"; Call "enable"] disabled_42))
    = true.
Proof. vm_compute. repeat split. Qed.

(** The end-to-end scenario: product 42, [photo.png] selected, the endpoint
    answers 201; the success alert is shown and no error. *)
Example scenario_42 :
  preview_src (render (state selected_42)) = Some "blob:0"
  ∧ (@step integer_ids Click selected_42).2 =
      [ESet (SetSuccess None); ESet (SetError None); ESet (SetLoading true);
       EFetch {| req_url := "/api/products/42/image"; req_method := "POST";
                 req_body := [("image", photo_png)];
                 req_headers := [("X-CSRF-TOKEN", "s3cr3t")] |}]
  ∧ success_alert (render (state uploaded_42)) = Some "Upload realizado com sucesso."
  ∧ error_alert (render (state uploaded_42)) = None
  ∧ button_disabled (render (state uploaded_42)) = false.
Proof. vm_compute. repeat split. Qed.

(** What makes the widget inert is the [disabled] attribute, not the
    handlers: an upload that was started before the parent called
    [disabled()] still applies its answer to the cells when it arrives. *)
Example answer_arrives_while_disabled :
  let w := @steps integer_ids [Click; Call "disabled"] selected_42 in
  isDisabled (state w) = true
  ∧ loading (state w) = true
  ∧ state (@steps integer_ids [FetchSettles 0 (Fulfilled created_201)] w)
    = {| isDisabled := true; loading := false;
         success := Some "Upload realizado com sucesso."; error := None;
         previewUrl := Some "blob:0" |}.
Proof. vm_compute. repeat split. Qed.

(** ** Beyond the specification: what else the code shows *)

Section Further.

Context `{JSNumber}.


(** *** Failures of the transport *)

(** X1. When the [fetch] promise rejects, the [catch] clause sets the error
    to the thrown value's [message] if it has a non-empty one, else to
    "Erro ao enviar imagem."; the success cell stays null and the loading
    flag ends down. *)
Theorem upload_rejected_message productModel document inputRef_current file net err s b :
  first_file inputRef_current = Some file →
  net (upload_request productModel document file) = Rejected err →
  let r := run_to_end net (handleUpload productModel document inputRef_current) s b in
  error (out_state r) =
    Some match err_message err with
         | Some (String c m) => String c m
         | _ => "Erro ao enviar imagem."
         end
  ∧ success (out_state r) = None
  ∧ success_calls (out_trace r) = [None]
  ∧ loading (out_state r) = false.
Proof.
  intros Hfile Hnet r.
  destruct (upload_trace productModel document _ file net s b Hfile) as [Htr _].
  fold r in Htr. rewrite Hnet in Htr.
  unfold r at 1 2 4. rewrite !run_to_end_replay. fold r. rewrite Htr.
  destruct err as [|[[|c m]|]]; done.
Qed.


(** *** What the handlers leave alone *)

(** X3. No invocation of [handleUpload] touches the enablement flag, the
    preview or the blob store: it calls neither [setIsDisabled] nor
    [setPreviewUrl] nor [URL.createObjectURL], however the request settles
    and also when no file is selected. *)
Theorem upload_leaves_preview_and_enablement productModel document inputRef_current net s b :
  let r := run_to_end net (handleUpload productModel document inputRef_current) s b in
  isDisabled (out_state r) = isDisabled s
  ∧ previewUrl (out_state r) = previewUrl s
  ∧ out_blobs r = b
  ∧ object_urls (out_trace r) = []
  ∧ Forall (λ e, (∀ v, e ≠ ESet (SetIsDisabled v))
                 ∧ (∀ v, e ≠ ESet (SetPreviewUrl v)))
           (out_trace r).
Proof.
  intros r. unfold r, handleUpload.
  destruct (first_file inputRef_current) as [file|]; simpl.
  - destruct (net _) as [res|err]; simpl; [destruct (ok res); simpl|].
    all: split; [done|split; [done|split; [done|split; [done|]]]].
    all: repeat (constructor; [split; intros v; discriminate|]); constructor.
  - split; [done|split; [done|split; [done|split; [done|]]]].
    repeat (constructor; [split; intros v; discriminate|]); constructor.
Qed.


(** *** The anti-forgery token *)

(** X9. [getCsrfToken] reads the first [meta] element named [csrf-token] in
    document order: elements with other names before it and any element
    after it are ignored, and a page without such an element gives the empty
    string. *)
Theorem csrf_token_of_first_meta (before : Document) :
  Forall (λ el, meta_name el ≠ "csrf-token") before →
  getCsrfToken before = EmptyString
  ∧ ∀ el after, meta_name el = "csrf-token" →
      getCsrfToken (before ++ el :: after)%list = meta_content el.
Proof.
  intros Hbefore. unfold getCsrfToken, querySelector_meta.
  induction Hbefore as [|x before Hx _ [IHnone IHsome]]; simpl.
  - split; [done|]. intros el after Hel.
    rewrite bool_decide_eq_true_2 by done. simpl. apply js_or_some_empty.
  - rewrite bool_decide_eq_false_2 by done. split; [exact IHnone|exact IHsome].
Qed.

(** *** More that holds of every reachable world *)



Lemma presentable_mount productModel document :
  presentable (mount productModel document).
Proof. split; simpl; [by left|done|done]. Qed.

Ltac shown :=
  split; cbn -[js_or];
  [ first [ left; reflexivity | right; reflexivity | assumption ]
  | first [ assumption | done
          | let Hm := fresh in
            intros ? Hm; apply (inj Some) in Hm as <-;
            first [ apply js_or_nonempty; done | done ] ]
  | first [ assumption | done ] ].

Lemma presentable_step productModel document e w :
  invariant productModel document w →
  presentable w →
  presentable (step e w).1.
Proof.
  destruct w as [pm doc st bl inp pend].
  intros [Hpm Hdoc _ _ _ Hpend] [Hsucc Herr Hprev]; simpl in *; subst pm doc.
  destruct e as [m|fs| |i r|i]; simpl.
  - destruct (handle !! m) as [t|] eqn:Hm; [|shown].
    apply handle_methods in Hm as [[_ ->]|[_ ->]]; shown.
  - destruct (isDisabled st || loading st); [shown|].
    unfold exec, handleFileChange. simpl.
    destruct fs as [[|f rest]|]; simpl; [shown|split; simpl|shown].
    + by left.
    + done.
    + intros u [= <-]. apply (createObjectURL_resolves f bl).
  - destruct (isDisabled st || loading st); [shown|].
    unfold exec, handleUpload.
    destruct (first_file (Some inp)) as [file|]; simpl; shown.
  - destruct Hpend as [[-> _]|(t & -> & Ht & _)]; [rewrite lookup_nil; shown|].
    destruct i as [|i]; [simpl|simpl; shown].
    destruct Ht as [file|file res Hok].
    + rewrite upload_try_shape. unfold exec. simpl pending. simpl state. simpl blobs.
      destruct r as [res|err].
      * destruct (ok res) eqn:Hok.
        -- rewrite upload_try_ok by done. shown.
        -- destruct (upload_try_not_ok productModel document file res Hok) as (k & Hk & _).
           rewrite Hk. shown.
      * rewrite upload_try_rejected. shown.
    + destruct (upload_try_not_ok productModel document file res Hok) as (k & Hk & _).
      rewrite Hk. shown.
  - destruct Hpend as [[-> _]|(t & -> & Ht & _)]; [rewrite lookup_nil; shown|].
    destruct i as [|i]; [simpl|simpl; shown].
    destruct Ht as [file|file res Hok].
    + rewrite upload_try_shape. shown.
    + destruct (upload_try_not_ok productModel document file res Hok) as (k & Hk & Hrun).
      rewrite Hk. unfold exec. simpl pending. simpl state. simpl blobs. rewrite Hrun. shown.
Qed.

Lemma reachable_presentable productModel document w :
  reachable productModel document w → presentable w.
Proof.
  induction 1 as [|e w Hreach IH]; [apply presentable_mount|].
  apply (presentable_step productModel document); [|done].
  by apply reachable_invariant.
Qed.

Lemma issued_nonempty (b : list File) u : u ∈ issued b → u ≠ EmptyString.
Proof.
  unfold issued. intros (i & -> & _)%list_elem_of_fmap. apply blob_url_nonempty.
Qed.

(** X5. A mounted component never has more than one upload in flight, and
    its loading flag is up exactly while one is; as long as one is, a click
    on the button and a change of the input do nothing, so no second request
    can be sent before the first is settled. *)
Theorem single_upload_in_flight productModel document w :
  reachable productModel document w →
  (length (pending w) ≤ 1)%nat
  ∧ (loading (state w) = true ↔ pending w ≠ [])
  ∧ (pending w ≠ [] →
       (∀ fs, step (Change fs) w = (w, [])) ∧ step Click w = (w, [])).
Proof.
  intros Hreach. apply reachable_invariant in Hreach.
  destruct (inv_pending _ _ _ Hreach) as [[Hnone Hidle]|(t & Hone & _ & Hbusy & _)].
  - rewrite Hnone, Hidle. split; [simpl; lia|]. split; [split; done|done].
  - rewrite Hone. split; [simpl; lia|]. split; [split; done|].
    intros _. unfold step, render. simpl. rewrite Hbusy, orb_true_r. done.
Qed.

(** X6. In every world a mounted component can reach, the preview cell is
    non-null exactly when the input has a first file, and a non-null preview
    is a non-empty URL that resolves to that file and is rendered. *)
Theorem preview_is_of_selected_file productModel document w :
  reachable productModel document w →
  (is_Some (previewUrl (state w)) ↔ is_Some (first_file (Some (input w))))
  ∧ ∀ u, previewUrl (state w) = Some u →
         u ≠ EmptyString
         ∧ resolve_blob (blobs w) u = first_file (Some (input w))
         ∧ preview_src (render (state w)) = Some u.
Proof.
  intros Hreach.
  pose proof (reachable_presentable _ _ _ Hreach) as Hshown.
  apply reachable_invariant in Hreach.
  split; [apply (inv_preview_file _ _ _ Hreach)|].
  intros u Hu.
  assert (u ≠ EmptyString) as Hne.
  { eapply issued_nonempty, (inv_preview_issued _ _ _ Hreach), Hu. }
  split; [done|]. split; [by apply (shown_preview _ Hshown)|].
  unfold render. simpl. rewrite Hu. simpl. by rewrite bool_decide_eq_true_2.
Qed.

(** X10. In every world a mounted component can reach, the alerts are the
    cells: the success cell is null or the fixed text, the error cell is
    null or a non-empty text, so the truthiness tests of the JSX never hide
    a message that was set. *)
Theorem messages_are_shown productModel document w :
  reachable productModel document w →
  success_alert (render (state w)) = success (state w)
  ∧ error_alert (render (state w)) = error (state w)
  ∧ (success (state w) = None
     ∨ success (state w) = Some "Upload realizado com sucesso.")
  ∧ error (state w) ≠ Some EmptyString.
Proof.
  intros Hreach. apply reachable_presentable in Hreach as [Hsucc Herr _].
  unfold render. simpl. repeat split.
  - destruct Hsucc as [-> | ->]; done.
  - destruct (error (state w)) as [m|] eqn:Hm; [|done].
    simpl. by rewrite bool_decide_eq_true_2 by (by apply Herr).
  - done.
  - intros Hm. by apply (Herr EmptyString).
Qed.

(** *** The blob store *)


(** *** Enablement during an upload *)

(** X8. Calling a method of the handle while an upload is in flight neither
    cancels the upload nor changes what its settlement does: for a mounted
    component the call and the settlement (of the request, or of the body
    read) lead to the same world in either order. *)
Theorem handle_call_commutes_with_settlement productModel document w m i r :
  reachable productModel document w →
  steps [Call m; FetchSettles i r] w = steps [FetchSettles i r; Call m] w
  ∧ steps [Call m; TextSettles i] w = steps [TextSettles i; Call m] w.
Proof.
  intros Hreach. apply reachable_invariant in Hreach.
  destruct w as [pm doc st bl inp pend].
  destruct Hreach as [Hpm Hdoc _ _ _ Hpend]; simpl in *; subst pm doc.
  unfold steps. simpl.
  destruct (handle !! m) as [t|] eqn:Hm; [|done].
  apply handle_methods in Hm as Ht.
  assert (∃ v, t = setIsDisabled v) as [v ->] by (destruct Ht as [[_ ->]|[_ ->]]; eauto).
  clear Ht Hm. simpl.
  destruct Hpend as [[-> _]|(t & -> & Ht & _)]; [by rewrite !lookup_nil|].
  destruct i as [|i]; [simpl|done].
  destruct Ht as [file|file res Hok].
  - rewrite upload_try_shape. unfold exec. cbn [fst blobs state pending unpark props page input].
    split; [|done].
    destruct r as [res|err].
    + destruct (ok res) eqn:Hok.
      * by rewrite !upload_try_ok.
      * destruct (upload_try_not_ok productModel document file res Hok) as (k & Hk & _).
        by rewrite Hk.
    + by rewrite !upload_try_rejected.
  - destruct (upload_try_not_ok productModel document file res Hok) as (k & Hk & Hrun).
    rewrite Hk. split; [done|].
    unfold exec. cbn [fst blobs state pending unpark props page input]. by rewrite !Hrun.
Qed.

End Further.

(** ** More of the scenario, checked *)

Lemma upload_rejected_message_witness :
  first_file (Some (input selected_42)) = Some photo_png
  ∧ offline (@upload_request integer_ids product_42 laravel_page photo_png)
    = Rejected failed_to_fetch
  ∧ let r := run_to_end offline
               (@handleUpload integer_ids product_42 laravel_page (Some (input selected_42)))
               (state selected_42) (blobs selected_42) in
    error (out_state r) = Some "Failed to fetch"
    ∧ success (out_state r) = None
    ∧ loading (out_state r) = false.
Proof.
  split; [reflexivity|]. split; [reflexivity|].
  destruct (@upload_rejected_message integer_ids product_42 laravel_page
              (Some (input selected_42)) photo_png offline failed_to_fetch
              (state selected_42) (blobs selected_42) eq_refl eq_refl)
    as (Herr & Hsucc & _ & Hload).
  exact (conj Herr (conj Hsucc Hload)).
Defined.

Lemma reachable_uploading_42 :
  @reachable integer_ids product_42 laravel_page uploading_42.
Proof.
  exact (@reachable_step integer_ids product_42 laravel_page Click _
           (@reachable_step integer_ids product_42 laravel_page
              (Change (Some [photo_png])) widget_42
              (@reachable_mount integer_ids product_42 laravel_page))).
Defined.

Lemma reachable_reselected_42 :
  @reachable integer_ids product_42 laravel_page reselected_42.
Proof.
  exact (@reachable_step integer_ids product_42 laravel_page
           (Change (Some [photo_png])) _ reachable_selected_42).
Defined.

Lemma single_upload_in_flight_witness :
  @reachable integer_ids product_42 laravel_page uploading_42
  ∧ pending uploading_42 ≠ []
  ∧ loading (state uploading_42) = true
  ∧ @step integer_ids Click uploading_42 = (uploading_42, [])
  ∧ @step integer_ids (Change (Some [logo_png])) uploading_42 = (uploading_42, []).
Proof.
  assert (pending uploading_42 ≠ []) as Hbusy by discriminate.
  split; [exact reachable_uploading_42|]. split; [exact Hbusy|].
  destruct (@single_upload_in_flight integer_ids product_42 laravel_page
              uploading_42 reachable_uploading_42) as (_ & Hload & Hinert).
  destruct (Hinert Hbusy) as [Hchange Hclick].
  exact (conj (proj2 Hload Hbusy) (conj Hclick (Hchange (Some [logo_png])))).
Defined.

Lemma preview_is_of_selected_file_witness :
  @reachable integer_ids product_42 laravel_page reselected_42
  ∧ previewUrl (state reselected_42) = Some "blob:1"
  ∧ resolve_blob (blobs reselected_42) "blob:1" = Some photo_png
  ∧ preview_src (render (state reselected_42)) = Some "blob:1".
Proof.
  split; [exact reachable_reselected_42|]. split; [reflexivity|].
  destruct (@preview_is_of_selected_file integer_ids product_42 laravel_page
              reselected_42 reachable_reselected_42) as [_ Hpreview].
  destruct (Hpreview "blob:1" eq_refl) as (_ & Hfile & Hsrc).
  exact (conj Hfile Hsrc).
Defined.

Lemma messages_are_shown_witness :
  @reachable integer_ids product_42 laravel_page uploaded_42
  ∧ success_alert (render (state uploaded_42)) = success (state uploaded_42)
  ∧ error_alert (render (state uploaded_42)) = error (state uploaded_42).
Proof.
  split; [exact reachable_uploaded_42|].
  destruct (@messages_are_shown integer_ids product_42 laravel_page
              uploaded_42 reachable_uploaded_42) as (Hsucc & Herr & _).
  exact (conj Hsucc Herr).
Defined.


Lemma handle_call_commutes_with_settlement_witness :
  @reachable integer_ids product_42 laravel_page uploading_42
  ∧ @steps integer_ids [Call "disabled"; FetchSettles 0 (Fulfilled created_201)] uploading_42
    = @steps integer_ids [FetchSettles 0 (Fulfilled created_201); Call "disabled"] uploading_42.
Proof.
  split; [exact reachable_uploading_42|].
  exact (proj1 (@handle_call_commutes_with_settlement integer_ids product_42 laravel_page
                  uploading_42 "disabled" 0 (Fulfilled created_201)
                  reachable_uploading_42)).
Defined.

Lemma csrf_token_of_first_meta_witness :
  Forall (λ el, meta_name el ≠ "csrf-token")
         [ {| meta_name := "viewport"; meta_content := "width=device-width" |} ]
  ∧ getCsrfToken two_token_page = "first".
Proof.
  assert (Forall (λ el, meta_name el ≠ "csrf-token")
            [ {| meta_name := "viewport"; meta_content := "width=device-width" |} ])
    as Hbefore by (repeat constructor; discriminate).
  split; [exact Hbefore|].
  exact (proj2 (@csrf_token_of_first_meta _ Hbefore)
           {| meta_name := "csrf-token"; meta_content := "first" |}
           [ {| meta_name := "csrf-token"; meta_content := "second" |} ] eq_refl).
Defined.
